(** * pycurl: a shallow embedding of [src/pycurl.py]

    The program is a thin command line front end: [docopt] turns the
    command line into a dictionary, a [schema.Schema] checks it, a dict
    comprehension turns the [KEY=VALUE] tokens into request headers, one
    [requests] call is made and its response is turned into an exit code.

    Python [str] values are modelled as [string]; the operations the source
    applies to them ([join], [count], [in], [split], an anchored regular
    expression) work character by character and give the same results
    whatever the width of a character.  Dictionaries with string keys are
    [gmap string _]. *)

From Stdlib Require Import ZArith NArith Ascii String List Lia Bool.
From stdpp Require Import base option list strings gmap fin_maps.

#[local] Set Warnings "-register-all".

(* stdpp freezes [append] under [simpl]; the proofs below compute with it *)
#[local] Arguments String.append !_ _ / : simpl nomatch.

Local Open Scope string_scope.
Local Open Scope list_scope.

(* ===================================================================== *)
(** ** Python string primitives used by the source *)
(* ===================================================================== *)

Module PyStr.

(** [sep.join(xs)] *)
Fixpoint join (sep : string) (xs : list string) : string :=
  match xs with
  | [] => ""
  | [x] => x
  | x :: rest => x ++ sep ++ join sep rest
  end.

(** [s.count(c)] for a one-character needle [c] *)
Fixpoint count (c : ascii) (s : string) : nat :=
  match s with
  | EmptyString => 0
  | String a rest => (if Ascii.eqb a c then 1 else 0) + count c rest
  end.

(** [c in s] for a one-character needle [c] *)
Fixpoint contains (c : ascii) (s : string) : bool :=
  match s with
  | EmptyString => false
  | String a rest => Ascii.eqb a c || contains c rest
  end.

(** [s.split(c)]: cut at every occurrence of [c]; never the empty list *)
Fixpoint split (c : ascii) (s : string) : list string :=
  match s with
  | EmptyString => [""]
  | String a rest =>
      if Ascii.eqb a c then "" :: split c rest
      else match split c rest with
           | piece :: pieces => String a piece :: pieces
           | [] => [String a ""]
           end
  end.

(** [s.startswith(p)], used only to state properties *)
Fixpoint startswith (p s : string) : bool :=
  match p, s with
  | EmptyString, _ => true
  | String a p', String b s' => Ascii.eqb b a && startswith p' s'
  | String _ _, EmptyString => false
  end.

End PyStr.

(* ===================================================================== *)
(** ** The fragment of [re] the URL pattern needs *)
(* ===================================================================== *)

Module Re.

Inductive regex : Type :=
| Bol                      (* ^      *)
| Lit (c : ascii)          (* c, \c  *)
| Cat (r1 r2 : regex)      (* r1r2   *)
| Opt (r : regex).         (* (r)?   *)

(** Backtracking matcher in continuation style.  [at0] tells whether the
    current position is the start of the subject, which is where [^]
    matches when [re.MULTILINE] is not set. *)
Fixpoint matches (r : regex) (at0 : bool) (s : string)
         (k : bool -> string -> bool) : bool :=
  match r with
  | Bol => at0 && k at0 s
  | Lit c =>
      match s with
      | String a rest => Ascii.eqb a c && k false rest
      | EmptyString => false
      end
  | Cat r1 r2 => matches r1 at0 s (fun at1 s1 => matches r2 at1 s1 k)
  | Opt r1 => matches r1 at0 s k || k at0 s
  end.

(** [pattern.search(s)]: a match starting at some offset of [s] *)
Fixpoint search_from (r : regex) (at0 : bool) (s : string) : bool :=
  matches r at0 s (fun _ _ => true)
  || match s with
     | String _ rest => search_from r false rest
     | EmptyString => false
     end.

Definition search (r : regex) (s : string) : bool := search_from r true s.

Fixpoint lits (s : string) : regex -> regex :=
  match s with
  | EmptyString => fun r => r
  | String a rest => fun r => Cat (Lit a) (lits rest r)
  end.

End Re.

(** [r"^http(s)?:\/\/"] *)
Definition url_pattern : Re.regex :=
  Re.Cat Re.Bol
    (Re.lits "http"
       (Re.Cat (Re.Opt (Re.Lit "s"%char))
          (Re.Cat (Re.Lit ":"%char) (Re.Cat (Re.Lit "/"%char) (Re.Lit "/"%char))))).

(* ===================================================================== *)
(** ** [json.loads] *)
(* ===================================================================== *)

(** The decoder of Python's standard library is a collaborator of the
    program, not part of it.  The program is embedded over an arbitrary
    decoder (see [Section Program]); the decoder below follows the grammar
    of CPython's [json.decoder]/[json.scanner] and is used to run the
    program on concrete command lines.  Interpreter limits (recursion
    depth, the digit limit of [int]) are not modelled. *)

Module Json.

(** A Python [float] made by the decoder: the double nearest to
    [m * 10^e] (up to sign), or one of the constants [NaN], [Infinity],
    [-Infinity] that the decoder accepts too. *)
Inductive pyfloat : Type :=
| FNaN
| FInf (neg : bool)
| FDec (neg : bool) (m : N) (e : Z).

(** Decoded values.  Strings are sequences of code points, since a
    [\uXXXX] escape denotes characters outside one byte. *)
Inductive value : Type :=
| JNone
| JBool (b : bool)
| JInt (z : Z)
| JFloat (f : pyfloat)
| JStr (s : list N)
| JList (xs : list value)
| JDict (kvs : list (list N * value)).

(** [float.__bool__]: false exactly for a zero.  [m * 10^e] is rounded to
    zero when it is at most half the least subnormal, [2^-1075]. *)
Definition float_bool (f : pyfloat) : bool :=
  match f with
  | FNaN | FInf _ => true
  | FDec _ m e =>
      if (m =? 0)%N then false
      else if (0 <=? e)%Z then true
      else (10 ^ (- e) <? Z.of_N m * 2 ^ 1075)%Z
  end.

(** [bool(v)] *)
Definition truthy (v : value) : bool :=
  match v with
  | JNone => false
  | JBool b => b
  | JInt z => negb (z =? 0)%Z
  | JFloat f => float_bool f
  | JStr s => negb (Nat.eqb (length s) 0)
  | JList xs => negb (Nat.eqb (length xs) 0)
  | JDict kvs => negb (Nat.eqb (length kvs) 0)
  end.

(** [d[k] = v] on an insertion-ordered dict *)
Fixpoint dict_set (k : list N) (v : value) (d : list (list N * value))
  : list (list N * value) :=
  match d with
  | [] => [(k, v)]
  | (k', v') :: rest =>
      if decide (k' = k) then (k, v) :: rest else (k', v') :: dict_set k v rest
  end.

Definition chr (n : nat) : ascii := ascii_of_nat n.
Definition quote : ascii := chr 34.
Definition backslash : ascii := chr 92.

Definition is_ws (c : ascii) : bool :=
  let n := N_of_ascii c in
  ((n =? 32) || (n =? 9) || (n =? 10) || (n =? 13))%N.

Fixpoint skip_ws (s : list ascii) : list ascii :=
  match s with
  | c :: rest => if is_ws c then skip_ws rest else s
  | [] => []
  end.

Definition digit (c : ascii) : option N :=
  let n := N_of_ascii c in
  if ((48 <=? n) && (n <=? 57))%N then Some (n - 48)%N else None.

Definition hexdigit (c : ascii) : option N :=
  let n := N_of_ascii c in
  if ((48 <=? n) && (n <=? 57))%N then Some (n - 48)%N
  else if ((97 <=? n) && (n <=? 102))%N then Some (n - 87)%N
  else if ((65 <=? n) && (n <=? 70))%N then Some (n - 55)%N
  else None.

(** the longest run of decimal digits at the front of [s] *)
Fixpoint digits (s : list ascii) : list N * list ascii :=
  match s with
  | c :: rest =>
      match digit c with
      | Some d => let '(ds, s') := digits rest in (d :: ds, s')
      | None => ([], s)
      end
  | [] => ([], [])
  end.

Definition number_of (ds : list N) : N :=
  fold_left (fun acc d => (10 * acc + d)%N) ds 0%N.

Fixpoint strip (p : string) (s : list ascii) : option (list ascii) :=
  match p, s with
  | EmptyString, _ => Some s
  | String a p', b :: s' => if Ascii.eqb a b then strip p' s' else None
  | String _ _, [] => None
  end.

(** [NUMBER_RE]: an optional minus sign, then [0] or a digit run that
    does not start with [0]; optionally a dot and a digit run; optionally
    [e] or [E], an optional sign and a digit run.  The result is an [int]
    when neither a fraction nor an exponent matched, a [float] otherwise. *)
Definition parse_number (s : list ascii) : option (value * list ascii) :=
  let '(neg, s1) :=
    match s with
    | c :: r => if Ascii.eqb c "-" then (true, r) else (false, s)
    | [] => (false, s)
    end in
  match s1 with
  | [] => None
  | c :: r =>
      match digit c with
      | None => None
      | Some d =>
          let '(ds, s2) := if (d =? 0)%N then ([], r) else digits r in
          let ipart := d :: ds in
          let '(frac, s3) :=
            match s2 with
            | p :: r2 =>
                if Ascii.eqb p "."
                then match digits r2 with
                     | ([], _) => (None, s2)
                     | (fs, r3) => (Some fs, r3)
                     end
                else (None, s2)
            | [] => (None, s2)
            end in
          let '(expo, s4) :=
            match s3 with
            | e :: r3 =>
                if Ascii.eqb e "e" || Ascii.eqb e "E"
                then
                  let '(eneg, r4) :=
                    match r3 with
                    | sg :: r4 =>
                        if Ascii.eqb sg "-" then (true, r4)
                        else if Ascii.eqb sg "+" then (false, r4)
                        else (false, r3)
                    | [] => (false, r3)
                    end in
                  match digits r4 with
                  | ([], _) => (None, s3)
                  | (es, r5) =>
                      let n := Z.of_N (number_of es) in
                      (Some (if eneg then (- n)%Z else n), r5)
                  end
                else (None, s3)
            | [] => (None, s3)
            end in
          match frac, expo with
          | None, None =>
              let n := Z.of_N (number_of ipart) in
              Some (JInt (if neg then (- n)%Z else n), s4)
          | _, _ =>
              let fs := default [] frac in
              let e := default 0%Z expo in
              Some (JFloat (FDec neg (number_of (ipart ++ fs))
                              (e - Z.of_nat (length fs))), s4)
          end
      end
  end.

(** four hexadecimal digits *)
Definition hex4 (s : list ascii) : option (N * list ascii) :=
  match s with
  | a :: b :: c :: d :: rest =>
      match hexdigit a, hexdigit b, hexdigit c, hexdigit d with
      | Some x, Some y, Some z, Some w =>
          Some (((x * 16 + y) * 16 + z) * 16 + w, rest)%N
      | _, _, _, _ => None
      end
  | _ => None
  end.

Definition simple_escape (c : ascii) : option N :=
  let n := N_of_ascii c in
  if ((n =? 34) || (n =? 92) || (n =? 47))%N then Some n
  else if (n =? 98)%N then Some 8%N          (* \b *)
  else if (n =? 102)%N then Some 12%N        (* \f *)
  else if (n =? 110)%N then Some 10%N        (* \n *)
  else if (n =? 114)%N then Some 13%N        (* \r *)
  else if (n =? 116)%N then Some 9%N         (* \t *)
  else None.

(** [scanstring], strict: the text after an opening quote up to the
    closing one.  Control characters are refused; a high surrogate
    followed by an escaped low surrogate is joined with it. *)
Fixpoint scanstring (fuel : nat) (s : list ascii) (acc : list N)
  : option (list N * list ascii) :=
  match fuel with
  | O => None
  | S f =>
      match s with
      | [] => None
      | c :: r =>
          if Ascii.eqb c quote then Some (rev acc, r)
          else if Ascii.eqb c backslash then
            match r with
            | [] => None
            | e :: r1 =>
                if Ascii.eqb e "u" then
                  match hex4 r1 with
                  | None => None
                  | Some (u, r2) =>
                      let lone := scanstring f r2 (u :: acc) in
                      if ((55296 <=? u) && (u <=? 56319))%N then
                        match strip (String backslash "u") r2 with
                        | Some r3 =>
                            match hex4 r3 with
                            | Some (u2, r4) =>
                                if ((56320 <=? u2) && (u2 <=? 57343))%N
                                then scanstring f r4
                                       ((65536 + (u - 55296) * 1024 + (u2 - 56320))%N :: acc)
                                else lone
                            | None => lone
                            end
                        | None => lone
                        end
                      else lone
                  end
                else
                  match simple_escape e with
                  | Some n => scanstring f r1 (n :: acc)
                  | None => None
                  end
            end
          else if (N_of_ascii c <? 32)%N then None
          else scanstring f r (N_of_ascii c :: acc)
      end
  end.

Definition parse_string (s : list ascii) : option (list N * list ascii) :=
  scanstring (S (length s)) s [].

(** [scan_once] with the object and array parsers it calls *)
Fixpoint parse_value (fuel : nat) (s : list ascii) {struct fuel}
  : option (value * list ascii) :=
  match fuel with
  | O => None
  | S f =>
      match s with
      | [] => None
      | c :: r =>
          if Ascii.eqb c quote then
            match parse_string r with
            | Some (str, r1) => Some (JStr str, r1)
            | None => None
            end
          else if Ascii.eqb c "{" then
            match skip_ws r with
            | c1 :: r1 =>
                if Ascii.eqb c1 "}" then Some (JDict [], r1)
                else parse_members f (c1 :: r1) []
            | [] => None
            end
          else if Ascii.eqb c "[" then
            match skip_ws r with
            | c1 :: r1 =>
                if Ascii.eqb c1 "]" then Some (JList [], r1)
                else parse_elems f (c1 :: r1) []
            | [] => None
            end
          else
            match strip "null" s, strip "true" s, strip "false" s with
            | Some r1, _, _ => Some (JNone, r1)
            | _, Some r1, _ => Some (JBool true, r1)
            | _, _, Some r1 => Some (JBool false, r1)
            | None, None, None =>
                match parse_number s with
                | Some res => Some res
                | None =>
                    match strip "NaN" s, strip "Infinity" s, strip "-Infinity" s with
                    | Some r1, _, _ => Some (JFloat FNaN, r1)
                    | _, Some r1, _ => Some (JFloat (FInf false), r1)
                    | _, _, Some r1 => Some (JFloat (FInf true), r1)
                    | None, None, None => None
                    end
                end
            end
      end
  end
with parse_elems (fuel : nat) (s : list ascii) (acc : list value) {struct fuel}
  : option (value * list ascii) :=
  match fuel with
  | O => None
  | S f =>
      match parse_value f s with
      | None => None
      | Some (v, r) =>
          match skip_ws r with
          | c :: r1 =>
              if Ascii.eqb c "]" then Some (JList (rev (v :: acc)), r1)
              else if Ascii.eqb c "," then parse_elems f (skip_ws r1) (v :: acc)
              else None
          | [] => None
          end
      end
  end
with parse_members (fuel : nat) (s : list ascii) (acc : list (list N * value))
       {struct fuel} : option (value * list ascii) :=
  match fuel with
  | O => None
  | S f =>
      match s with
      | [] => None
      | q :: r =>
          if Ascii.eqb q quote then
            match parse_string r with
            | None => None
            | Some (key, r1) =>
                match skip_ws r1 with
                | c :: r2 =>
                    if Ascii.eqb c ":" then
                      match parse_value f (skip_ws r2) with
                      | None => None
                      | Some (v, r3) =>
                          let acc' := dict_set key v acc in
                          match skip_ws r3 with
                          | c' :: r4 =>
                              if Ascii.eqb c' "}" then Some (JDict acc', r4)
                              else if Ascii.eqb c' ","
                                   then parse_members f (skip_ws r4) acc'
                                   else None
                          | [] => None
                          end
                      end
                    else None
                | [] => None
                end
            end
          else None
      end
  end.

(** [json.loads(s)]: one value between optional white space and nothing
    else; [None] stands for the [JSONDecodeError] it raises otherwise.  The
    fuel bounds the nesting of the calls of [parse_value], [parse_elems]
    and [parse_members], each of which is made after a character has been
    consumed. *)
Definition loads (s : string) : option value :=
  let cs := skip_ws (list_ascii_of_string s) in
  match parse_value (2 * length cs + 2) cs with
  | Some (v, rest) =>
      match skip_ws rest with
      | [] => Some v
      | _ :: _ => None
      end
  | None => None
  end.

End Json.

(* ===================================================================== *)
(** ** Values, exceptions and the world the program acts on *)
(* ===================================================================== *)

(** The exceptions that can leave a function of the program.  A
    [SchemaError] carries the [error=] texts collected on the way out,
    outermost first; [str(e)] joins them with newlines.  (The generated
    texts, which [str(e)] shows only when there is no [error=] text, are
    left out.) *)
Inductive exn : Type :=
| SchemaError (errors : list string)
| IndexError
| JSONDecodeError
| TransportFault (what : string).

Definition str_exn (e : exn) : string :=
  match e with
  | SchemaError errors => PyStr.join (String (Json.chr 10) "") errors
  | IndexError => "list index out of range"
  | JSONDecodeError => "JSONDecodeError"
  | TransportFault what => what
  end.

Inductive Level : Type := DEBUG | INFO | WARNING | ERROR.

Definition levelno (l : Level) : Z :=
  match l with DEBUG => 10 | INFO => 20 | WARNING => 30 | ERROR => 40 end.

Inductive Verb : Type := GET | POST | PUT.

(** What one call of [requests.get/post/put] hands to the transport *)
Record Request : Type := mkRequest {
  req_verb : Verb;
  req_url : string;
  req_headers : gmap string string;
  req_json : option Json.value
}.

(** The two attributes of [requests.models.Response] the program reads *)
Record Response : Type := mkResponse {
  ok : bool;
  text : string
}.

(** [docopt]'s result for the first usage pattern *)
Record Arguments : Type := mkArguments {
  a_get : bool;
  a_put : bool;
  a_post : bool;
  a_url : string;                (* '<url>'     *)
  a_headers : list string;       (* '--headers', [] when the option is absent *)
  a_data : option string;        (* '--data', None when the option is absent  *)
  a_verbose : bool;              (* '--verbose' *)
  a_version : bool               (* '--version' *)
}.

Record World : Type := mkWorld {
  stdout : list string;              (* lines written by [print]            *)
  stderr : list exn;                 (* uncaught exceptions reported at exit *)
  root_handlers : bool;              (* the root logger has a handler       *)
  root_level : Level;                (* level of the root logger            *)
  log_output : list (Level * string);(* records the root logger emitted     *)
  sent : list Request                (* requests handed to the transport    *)
}.

Definition fresh : World :=
  mkWorld [] [] false WARNING [] [].

(** *** State and exception monad *)

Definition M (A : Type) : Type := World -> (exn + A) * World.

Definition ret {A} (x : A) : M A := fun w => (inr x, w).
Definition raise {A} (e : exn) : M A := fun w => (inl e, w).
Definition bind {A B} (c : M A) (k : A -> M B) : M B :=
  fun w => match c w with
           | (inr x, w') => k x w'
           | (inl e, w') => (inl e, w')
           end.
Definition catch {A} (c : M A) (handler : exn -> M A) : M A :=
  fun w => match c w with
           | (inr x, w') => (inr x, w')
           | (inl e, w') => handler e w'
           end.
Definition lift {A} (r : exn + A) : M A := fun w => (r, w).

Notation "'let*' x := c 'in' k" := (bind c (fun x => k))
  (at level 10, x name, c at level 100, k at level 200, only parsing).

(** *** [print] and [logging] *)

Definition print (line : string) : M unit :=
  fun w => (inr tt, mkWorld (stdout w ++ [line]) (stderr w) (root_handlers w)
                            (root_level w) (log_output w) (sent w)).

(** [logging.basicConfig(level=...)]: does nothing once the root logger has
    a handler *)
Definition basicConfig_world (level : option Level) (w : World) : World :=
  if root_handlers w then w
  else mkWorld (stdout w) (stderr w) true (default (root_level w) level)
               (log_output w) (sent w).

Definition basicConfig (level : option Level) : M unit :=
  fun w => (inr tt, basicConfig_world level w).

(** [logging.debug/info/error(msg)]: configure the root logger if it has
    no handler yet, then emit when the level is enabled *)
Definition log_world (lvl : Level) (msg : string) (w : World) : World :=
  let w1 := basicConfig_world None w in
  if (levelno (root_level w1) <=? levelno lvl)%Z
  then mkWorld (stdout w1) (stderr w1) (root_handlers w1) (root_level w1)
               (log_output w1 ++ [(lvl, msg)]) (sent w1)
  else w1.

Definition logging_log (lvl : Level) (msg : string) : M unit :=
  fun w => (inr tt, log_world lvl msg w).

(* ===================================================================== *)
(** ** The fragment of [schema] the program uses *)
(* ===================================================================== *)

Module Schema.

(** [Schema(s).validate(data)]: the validated data, or the [error=] texts
    of the [SchemaError] raised *)
Definition validator (A : Type) : Type := A -> list string + A.

(** [Regex(pattern, error=...)] *)
Definition Regex (pattern : Re.regex) (error : string) : validator string :=
  fun data => if Re.search pattern data then inr data else inl [error].

(** a callable [f]: valid when [f(data)] is truthy; an exception raised by
    [f] ([None] here) and a falsy result both invalidate *)
Definition Callable {A} (f : A -> option bool) : validator A :=
  fun data => match f data with
              | Some true => inr data
              | Some false | None => inl []
              end.

(** a literal ([None], [True], [False]): valid when [data == literal],
    given as the test [is_literal] on the type of the data *)
Definition Literal {A} (is_literal : A -> bool) : validator A :=
  fun data => if is_literal data then inr data else inl [].

(** [And(v1, v2, ...)]: each validator in turn, on the result of the last *)
Fixpoint And {A} (vs : list (validator A)) : validator A :=
  fun data =>
    match vs with
    | [] => inr data
    | v :: rest =>
        match v data with
        | inr data' => And rest data'
        | inl errors => inl errors
        end
    end.

(** [Or(v1, v2, ..., error=...)]: the first validator that accepts *)
Fixpoint Or_from {A} (vs : list (validator A)) (error : list string)
         (collected : list string) : validator A :=
  fun data =>
    match vs with
    | [] => inl (error ++ collected)
    | v :: rest =>
        match v data with
        | inr data' => inr data'
        | inl errors => Or_from rest error (collected ++ errors) data
        end
    end.

Definition Or {A} (vs : list (validator A)) (error : list string) : validator A :=
  Or_from vs error [].

(** [Or(True, False)] on a [bool] *)
Definition AnyBool : validator bool :=
  Or [Literal (fun b : bool => b); Literal negb] [].

(** The dictionary schema of [main], key by key *)
Record t : Type := mk {
  s_get : validator bool;
  s_put : validator bool;
  s_post : validator bool;
  s_url : validator string;
  s_headers : validator (list string);
  s_data : validator (option string);
  s_verbose : validator bool;
  s_version : validator bool
}.

(** [schema.validate(arguments)]: the items of the dictionary in its
    order, each against the schema of its key; the first failure raises *)
Definition validate (s : t) (a : Arguments) : exn + Arguments :=
  let check {A} (v : validator A) (x : A) (k : A -> exn + Arguments) :=
    match v x with
    | inl errors => inl (SchemaError errors)
    | inr x' => k x'
    end in
  check (s_get s) (a_get a) (fun g =>
  check (s_put s) (a_put a) (fun pu =>
  check (s_post s) (a_post a) (fun po =>
  check (s_url s) (a_url a) (fun u =>
  check (s_headers s) (a_headers a) (fun h =>
  check (s_data s) (a_data a) (fun d =>
  check (s_verbose s) (a_verbose a) (fun vb =>
  check (s_version s) (a_version a) (fun vs =>
  inr (mkArguments g pu po u h d vb vs))))))))).

End Schema.

(* ===================================================================== *)
(** ** The program *)
(* ===================================================================== *)

Section Program.

(** [json.loads]: the decoded value, or [None] when it raises *)
Variable json_loads : string -> option Json.value.

(** The HTTP transport behind [requests]: given the requests made so far
    and the present one, a response or a transport fault *)
Variable transport : list Request -> Request -> string + Response.

(** The text of [f"Sending request to {url} with {headers} and {body}"] *)
Variable fstring : string -> gmap string string -> option Json.value -> string.

(** [requests.get/post/put(url, headers=headers, json=body)] *)
Definition requests_request (v : Verb) (url : string)
           (headers : gmap string string) (body : option Json.value) : M Response :=
  fun w =>
    let rq := mkRequest v url headers body in
    let w' := mkWorld (stdout w) (stderr w) (root_handlers w) (root_level w)
                      (log_output w) (sent w ++ [rq]) in
    match transport (sent w) rq with
    | inl fault => (inl (TransportFault fault), w')
    | inr r => (inr r, w')
    end.

(** [_log_response] *)
Definition _log_response (r : Response) : M Z :=
  if ok r then
    let* _ := logging_log INFO (text r) in
    ret 0%Z
  else
    let* _ := logging_log ERROR (text r) in
    ret 1%Z.

Definition get (url : string) (headers : gmap string string)
           (body : option Json.value) : M Z :=
  let* r := requests_request GET url headers body in
  _log_response r.

Definition post (url : string) (headers : gmap string string)
           (body : option Json.value) : M Z :=
  let* r := requests_request POST url headers body in
  _log_response r.

Definition put (url : string) (headers : gmap string string)
           (body : option Json.value) : M Z :=
  let* r := requests_request PUT url headers body in
  _log_response r.

(** *** The schema of [main] *)

(** [lambda x: '=' in ''.join(x)] *)
Definition headers_have_eq (x : list string) : bool :=
  PyStr.contains "=" (PyStr.join "" x).

(** [lambda y: ''.join(y).count('=') == len(y)] *)
Definition headers_count_eq (y : list string) : bool :=
  Nat.eqb (PyStr.count "=" (PyStr.join "" y)) (length y).

Definition url_error : string := "URL must begin with http:// or https://.".
Definition data_error : string := "Body must be in json format.".
Definition headers_error : string := "Headers must be in KEY=VALUE format.".

(** [Regex(r"^http(s)?:\/\/", error=...)] *)
Definition url_schema : Schema.validator string :=
  Schema.Regex url_pattern url_error.

(** [Or(None, json.loads, error=...)] *)
Definition data_schema : Schema.validator (option string) :=
  Schema.Or
    [ Schema.Literal (fun d : option string => bool_decide (d = None));
      Schema.Callable (fun d : option string =>
                         match d with
                         | Some s => Json.truthy <$> json_loads s
                         | None => None     (* json.loads(None): TypeError *)
                         end) ]
    [data_error].

(** [Or(None, And(lambda x: ..., lambda y: ...), error=...)]; a list never
    equals [None] *)
Definition headers_schema : Schema.validator (list string) :=
  Schema.Or
    [ Schema.Literal (fun _ : list string => false);
      Schema.And [ Schema.Callable (fun x => Some (headers_have_eq x));
                   Schema.Callable (fun y => Some (headers_count_eq y)) ] ]
    [headers_error].

Definition the_schema : Schema.t :=
  Schema.mk Schema.AnyBool Schema.AnyBool Schema.AnyBool
            url_schema headers_schema data_schema
            Schema.AnyBool Schema.AnyBool.

(** *** The dict comprehension of line 107 *)

(** [xs[i]] *)
Definition index {A} (xs : list A) (i : nat) : exn + A :=
  match xs !! i with
  | Some x => inr x
  | None => inl IndexError
  end.

(** one item: [header.split('=')[0]] and [header.split('=')[1]] *)
Definition header_item (header : string) : exn + (string * string) :=
  match index (PyStr.split "=" header) 0 with
  | inl e => inl e
  | inr k =>
      match index (PyStr.split "=" header) 1 with
      | inl e => inl e
      | inr v => inr (k, v)
      end
  end.

(** [{header.split('=')[0]: header.split('=')[1] for header in hs}],
    started from the dictionary [d] built so far *)
Fixpoint headers_dict_from (d : gmap string string) (hs : list string)
  : exn + gmap string string :=
  match hs with
  | [] => inr d
  | header :: rest =>
      match header_item header with
      | inl e => inl e
      | inr (k, v) => headers_dict_from (<[k := v]> d) rest
      end
  end.

Definition headers_dict (hs : list string) : exn + gmap string string :=
  headers_dict_from ∅ hs.

(** [json.loads(data) if data else None] *)
Definition body_of (data : option string) : exn + option Json.value :=
  match data with
  | None | Some EmptyString => inr None
  | Some s =>
      match json_loads s with
      | Some v => inr (Some v)
      | None => inl JSONDecodeError
      end
  end.

(** *** [main] *)

(** What [main] has in hand when it reaches the dispatch: the validated
    request.  The spec calls it the request descriptor. *)
Record Descriptor : Type := mkDescriptor {
  d_method : option Verb;
  d_url : string;
  d_headers : gmap string string;
  d_body : option Json.value;
  d_verbose : bool
}.

(** the [if]/[elif] chain of lines 113 to 118 picks the verb *)
Definition method_of (a : Arguments) : option Verb :=
  if a_get a then Some GET
  else if a_post a then Some POST
  else if a_put a then Some PUT
  else None.

(** Lines 101 to 111: validation and construction of the request *)
Definition prepare (schema : Schema.t) (arguments : Arguments) : M Descriptor :=
  let* arguments := lift (Schema.validate schema arguments) in
  let log_level := if a_verbose arguments then DEBUG else INFO in
  let* _ := basicConfig (Some log_level) in
  let url := a_url arguments in
  let* headers := lift (headers_dict (a_headers arguments)) in
  let* body := lift (body_of (a_data arguments)) in
  let* _ := logging_log DEBUG (fstring url headers body) in
  ret (mkDescriptor (method_of arguments) url headers body (a_verbose arguments)).

(** Lines 109 and 113 to 120 *)
Definition dispatch (d : Descriptor) : M Z :=
  match d_method d with
  | Some GET => get (d_url d) (d_headers d) (d_body d)
  | Some POST => post (d_url d) (d_headers d) (d_body d)
  | Some PUT => put (d_url d) (d_headers d) (d_body d)
  | None => ret 0%Z
  end.

(** [main], for the dictionary [docopt] returned.  The [try] block holds
    the construction of the schema only; its handler prints the error and
    returns 1.  [inl rc] is a [return rc] from inside the handler. *)
Definition main (arguments : Arguments) : M Z :=
  let* r := catch (ret (inr the_schema))
                  (fun e => match e with
                            | SchemaError _ =>
                                let* _ := print (str_exn e) in
                                ret (inl 1%Z)
                            | _ => raise e
                            end) in
  match r with
  | inl rc => ret rc
  | inr schema =>
      let* d := prepare schema arguments in
      dispatch d
  end.

(** [exit(main())]: the exit status of the process.  An exception that
    leaves [main] is reported by the interpreter on standard error, and
    the status is 1. *)
Definition script (arguments : Arguments) (w : World) : Z * World :=
  match main arguments w with
  | (inr rc, w') => (rc, w')
  | (inl e, w') =>
      (1%Z, mkWorld (stdout w') (stderr w' ++ [e]) (root_handlers w')
                    (root_level w') (log_output w') (sent w'))
  end.

End Program.

(* ===================================================================== *)
(** ** Notions used to state the properties *)
(* ===================================================================== *)

(** the entry has exactly one ['='] *)
Definition one_eq (h : string) : Prop := PyStr.count "=" h = 1.

(** [k] is the key of no entry of [hs] *)
Definition key_absent (k : string) (hs : list string) : Prop :=
  Forall (fun h => forall v, header_item h <> inr (k, v)) hs.

(** the last entry of [hs] with key [k] has value [v] *)
Definition last_entry (k v : string) (hs : list string) : Prop :=
  exists before h after,
    hs = before ++ h :: after /\ header_item h = inr (k, v) /\ key_absent k after.

(** the key of an entry in the comprehension: [header.split('=')[0]] *)
Definition header_key (h : string) : string :=
  match PyStr.split "=" h with
  | k :: _ => k
  | [] => ""
  end.

(** the world after one more request was handed to the transport *)
Definition record_request (rq : Request) (w : World) : World :=
  mkWorld (stdout w) (stderr w) (root_handlers w) (root_level w)
          (log_output w) (sent w ++ [rq]).

(** the level [main] asks [basicConfig] for *)
Definition level_of (a : Arguments) : Level :=
  if a_verbose a then DEBUG else INFO.

(* ===================================================================== *)
(** ** Sample collaborators and command lines *)
(* ===================================================================== *)

Module Sample.

(** a transport that answers every request with [r] *)
Definition always (r : Response) : list Request -> Request -> string + Response :=
  fun _ _ => inr r.

Definition fstring (url : string) (headers : gmap string string)
           (body : option Json.value) : string :=
  ("Sending request to " ++ url)%string.

(** a transport that fails on every request *)
Definition refused : list Request -> Request -> string + Response :=
  fun _ _ => inl "Connection refused".

Definition r200 : Response := mkResponse true "ok".
Definition r500 : Response := mkResponse false "server error".

Definition dq : string := String Json.quote "".

(** the text [{"id":"that"}] of the usage examples *)
Definition id_that : string :=
  ("{" ++ dq ++ "id" ++ dq ++ ":" ++ dq ++ "that" ++ dq ++ "}")%string.

(** the text [{"id":}] *)
Definition id_missing : string :=
  ("{" ++ dq ++ "id" ++ dq ++ ":}")%string.

(** [pycurl.py get https://httpbin.org/get -H Content-Type=application/json
    --data '{"id":"that"}' --verbose], the first example of the usage *)
Definition usage_get : Arguments :=
  mkArguments true false false "https://httpbin.org/get"
              ["Content-Type=application/json"] (Some id_that) true false.

(** the mapping and the body that [usage_get] and [usage_post] lead to *)
Definition usage_headers : gmap string string :=
  {["Content-Type" := "application/json"]}.

Definition usage_body : option Json.value :=
  Some (Json.JDict [([105; 100], Json.JStr [116; 104; 97; 116])]%N).

(** the second example of the usage, without [--verbose] *)
Definition usage_post : Arguments :=
  mkArguments false false true "https://httpbin.org/post"
              ["Content-Type=application/json"] (Some id_that) false false.

(** a process whose root logger was set up by [basicConfig(level=INFO)] *)
Definition configured : World := basicConfig_world (Some INFO) fresh.

(** [pycurl.py get ftp://example.com -H a=b] *)
Definition bad_url : Arguments :=
  mkArguments true false false "ftp://example.com" ["a=b"] None false false.

(** [pycurl.py post https://httpbin.org/post -H a=b --data '{}'] *)
Definition empty_object : Arguments :=
  mkArguments false false true "https://httpbin.org/post" ["a=b"] (Some "{}")
              false false.

(** [pycurl.py get https://httpbin.org/get -H a==b -H c] *)
Definition uneven : Arguments :=
  mkArguments true false false "https://httpbin.org/get" ["a==b"; "c"] None
              false false.

(** [pycurl.py get https://httpbin.org/get] *)
Definition no_headers : Arguments :=
  mkArguments true false false "https://httpbin.org/get" [] None false false.

End Sample.

(** the function [main] calls for a verb *)
Definition verb_function (v : Verb) :=
  match v with GET => get | POST => post | PUT => put end.

(** The reading of the specification under which the header check is made
    entry by entry: a sequence is rejected exactly when one of its entries
    does not have exactly one ['=']. *)
Definition rejects_iff_some_entry_malformed (hs : list string) : Prop :=
  (exists errors, headers_schema hs = inl errors)
  <-> (exists h, In h hs /\ PyStr.count "=" h <> 1).


(* ===================================================================== *)
(** ** Facts about the string primitives *)
(* ===================================================================== *)

Module PyStrFacts.
Import PyStr.

Lemma startswith_spec (p s : string) :
  startswith p s = true <-> exists rest, s = (p ++ rest)%string.
Proof.
  revert s. induction p as [|a p IH]; intros s; simpl.
  - split; eauto.
  - destruct s as [|b s]; simpl.
    + split; [discriminate | intros [rest Hr]; discriminate].
    + rewrite andb_true_iff, IH, Ascii.eqb_eq. split.
      * intros [-> [rest ->]]. eauto.
      * intros [rest Hr]. injection Hr as -> ->. eauto.
Qed.

Lemma append_nil_r (s : string) : (s ++ "")%string = s.
Proof. induction s; simpl; congruence. Qed.

Lemma append_assoc (s1 s2 s3 : string) :
  ((s1 ++ s2) ++ s3 = s1 ++ (s2 ++ s3))%string.
Proof. induction s1; simpl; congruence. Qed.

(** [''.join] is plain concatenation *)
Lemma join_empty_cons (x : string) (xs : list string) :
  join "" (x :: xs) = (x ++ join "" xs)%string.
Proof. destruct xs; simpl; [now rewrite append_nil_r | reflexivity]. Qed.

Lemma join_empty_app (xs ys : list string) :
  join "" (xs ++ ys) = (join "" xs ++ join "" ys)%string.
Proof.
  induction xs as [|x xs IH]; [reflexivity|].
  change ((x :: xs) ++ ys)%list with (x :: (xs ++ ys)%list).
  now rewrite !join_empty_cons, IH, append_assoc.
Qed.

Lemma count_app (c : ascii) (s1 s2 : string) :
  count c (s1 ++ s2)%string = count c s1 + count c s2.
Proof. induction s1; simpl; lia. Qed.

Lemma contains_count (c : ascii) (s : string) :
  contains c s = negb (Nat.eqb (count c s) 0).
Proof.
  induction s as [|a s IH]; simpl; [reflexivity|].
  destruct (Ascii.eqb a c); simpl; [reflexivity | exact IH].
Qed.

Lemma contains_false_count (c : ascii) (s : string) :
  contains c s = false <-> count c s = 0.
Proof.
  rewrite contains_count, negb_false_iff. apply Nat.eqb_eq.
Qed.

(** the number of [c] in [''.join(xs)] is the sum over the entries *)
Lemma count_join (c : ascii) (xs : list string) :
  count c (join "" xs) = list_sum (map (count c) xs).
Proof.
  induction xs as [|x xs IH]; [reflexivity|].
  rewrite join_empty_cons, count_app, IH. reflexivity.
Qed.

Lemma list_sum_all_one (c : ascii) (xs : list string) :
  Forall (fun x => count c x = 1) xs -> list_sum (map (count c) xs) = length xs.
Proof. induction 1 as [|x xs Hx _ IH]; simpl; lia. Qed.

Lemma split_nonempty (c : ascii) (s : string) : split c s <> [].
Proof.
  induction s as [|a s IH]; simpl; [discriminate|].
  destruct (Ascii.eqb a c); [discriminate|].
  destruct (split c s); discriminate.
Qed.

(** [s.split(c)] has one piece more than [s] has occurrences of [c] *)
Lemma split_length (c : ascii) (s : string) :
  length (split c s) = S (count c s).
Proof.
  induction s as [|a s IH]; simpl; [reflexivity|].
  destruct (Ascii.eqb a c); simpl; [now rewrite IH|].
  destruct (split c s) eqn:E; simpl in *; [discriminate | exact IH].
Qed.

Lemma split_no_sep (c : ascii) (s : string) :
  contains c s = false -> split c s = [s].
Proof.
  induction s as [|a s IH]; simpl; [reflexivity|].
  destruct (Ascii.eqb a c); simpl; [discriminate|].
  intros H. now rewrite (IH H).
Qed.


(** every piece is free of [c] *)
Lemma split_pieces (c : ascii) (s : string) :
  Forall (fun piece => contains c piece = false) (split c s).
Proof.
  induction s as [|a s IH]; simpl.
  - repeat constructor.
  - destruct (Ascii.eqb a c) eqn:E.
    + constructor; [reflexivity | exact IH].
    + destruct (split c s) as [|piece pieces]; inversion IH; subst;
        constructor; simpl; try rewrite E; auto.
Qed.

(** joining the pieces with [c] gives the string back *)
Lemma join_split (c : ascii) (s : string) :
  join (String c "") (split c s) = s.
Proof.
  induction s as [|a s IH]; simpl; [reflexivity|].
  destruct (Ascii.eqb a c) eqn:E.
  - apply Ascii.eqb_eq in E as ->.
    pose proof (split_nonempty c s) as Hne.
    destruct (split c s) as [|piece pieces]; [congruence|].
    simpl in *. now rewrite IH.
  - destruct (split c s) as [|piece pieces] eqn:Es.
    + now destruct (split_nonempty c s).
    + destruct pieces; simpl in *; now rewrite <- IH.
Qed.

End PyStrFacts.

(* ===================================================================== *)
(** ** Facts about the URL pattern *)
(* ===================================================================== *)

Lemma url_pattern_needs_start (s : string) :
  Re.search_from url_pattern false s = false.
Proof.
  induction s as [|a s IH]; simpl; [reflexivity | exact IH].
Qed.

Lemma url_pattern_search (s : string) :
  Re.search url_pattern s
  = PyStr.startswith "http://" s || PyStr.startswith "https://" s.
Proof.
  unfold Re.search.
  assert (Hm : Re.matches url_pattern true s (fun _ _ => true)
               = PyStr.startswith "http://" s || PyStr.startswith "https://" s).
  { destruct s as [|c1 s]; [reflexivity|]; simpl.
    destruct (Ascii.eqb c1 "h"); [|reflexivity]; simpl.
    destruct s as [|c2 s]; [reflexivity|]; simpl.
    destruct (Ascii.eqb c2 "t"); [|reflexivity]; simpl.
    destruct s as [|c3 s]; [reflexivity|]; simpl.
    destruct (Ascii.eqb c3 "t"); [|reflexivity]; simpl.
    destruct s as [|c4 s]; [reflexivity|]; simpl.
    destruct (Ascii.eqb c4 "p"); [|reflexivity]; simpl.
    destruct s as [|c5 s]; [reflexivity|]; simpl.
    destruct (Ascii.eqb c5 "s") eqn:E5; simpl.
    - apply Ascii.eqb_eq in E5 as ->; simpl.
      destruct s as [|c6 s]; [reflexivity|]; simpl.
      destruct (Ascii.eqb c6 ":"); [|reflexivity]; simpl.
      destruct s as [|c7 s]; [reflexivity|]; simpl.
      destruct (Ascii.eqb c7 "/"); [|reflexivity]; simpl.
      destruct s as [|c8 s]; [reflexivity|]; simpl.
      destruct (Ascii.eqb c8 "/"); reflexivity.
    - destruct (Ascii.eqb c5 ":"); [|reflexivity]; simpl.
      destruct s as [|c6 s]; [reflexivity|]; simpl.
      destruct (Ascii.eqb c6 "/"); [|reflexivity]; simpl.
      destruct s as [|c7 s]; [reflexivity|]; simpl.
      destruct (Ascii.eqb c7 "/"); [|now rewrite ?orb_false_r]; simpl.
      reflexivity. }
  destruct s as [|a s]; simpl in *.
  - reflexivity.
  - rewrite url_pattern_needs_start, orb_false_r. exact Hm.
Qed.

(* ===================================================================== *)
(** ** The header check and the header mapping *)
(* ===================================================================== *)

Section Headers.
Import PyStr PyStrFacts.

(** the check of the schema, as the conjunction of its two lambdas *)
Lemma headers_schema_eq (hs : list string) :
  headers_schema hs
  = if headers_have_eq hs && headers_count_eq hs
    then inr hs else inl [headers_error].
Proof.
  unfold headers_schema, Schema.Or, Schema.Or_from, Schema.And,
    Schema.Callable, Schema.Literal.
  destruct (headers_have_eq hs), (headers_count_eq hs); reflexivity.
Qed.

(** in terms of the number of ['='] in all entries together *)
Lemma headers_schema_total (hs : list string) :
  headers_schema hs
  = if negb (Nat.eqb (length hs) 0)
       && Nat.eqb (list_sum (map (count "=") hs)) (length hs)
    then inr hs else inl [headers_error].
Proof.
  rewrite headers_schema_eq. unfold headers_have_eq, headers_count_eq.
  rewrite contains_count, count_join.
  destruct (Nat.eqb_spec (list_sum (map (count "=") hs)) (length hs)) as [E|E].
  - now rewrite E.
  - now rewrite !andb_false_r.
Qed.

Lemma headers_schema_empty : headers_schema [] = inl [headers_error].
Proof. reflexivity. Qed.

(** [header.split('=')[1]] exists exactly when the entry has a ['='] *)
Lemma header_item_fails (h : string) :
  count "=" h = 0 -> header_item h = inl IndexError.
Proof.
  intros H. unfold header_item.
  rewrite (split_no_sep "=" h) by now apply contains_false_count.
  reflexivity.
Qed.

Lemma header_item_succeeds (h : string) :
  count "=" h <> 0 -> exists k v, header_item h = inr (k, v).
Proof.
  intros H. unfold header_item, index.
  pose proof (split_length "=" h) as Hl.
  destruct (split "=" h) as [|k [|v pieces]]; simpl in *; try lia.
  eauto.
Qed.

Lemma header_item_error (h : string) (e : exn) :
  header_item h = inl e -> e = IndexError /\ count "=" h = 0.
Proof.
  intros H. destruct (Nat.eq_dec (count "=" h) 0) as [E|E].
  - rewrite (header_item_fails h E) in H. now injection H as <-.
  - destruct (header_item_succeeds h E) as (k & v & Hkv). congruence.
Qed.


(** *** The comprehension, entry by entry *)

Lemma last_entry_nil (k v : string) : ~ last_entry k v [].
Proof. intros (before & h & after & H & _). now destruct before. Qed.

Lemma last_entry_cons (k v h : string) (hs : list string) :
  last_entry k v (h :: hs)
  <-> last_entry k v hs \/ (header_item h = inr (k, v) /\ key_absent k hs).
Proof.
  split.
  - intros (before & h' & after & Heq & Hh & Habs).
    destruct before as [|b before]; simpl in Heq; injection Heq as -> ->.
    + now right.
    + left. now exists before, h', after.
  - intros [(before & h' & after & -> & Hh & Habs) | [Hh Habs]].
    + now exists (h :: before), h', after.
    + now exists [], h, hs.
Qed.

Lemma key_absent_or_present (k : string) (hs : list string) :
  key_absent k hs \/ exists h v, In h hs /\ header_item h = inr (k, v).
Proof.
  induction hs as [|h hs [Habs | (h' & v & Hin & Hh)]].
  - left. constructor.
  - destruct (header_item h) as [e | [k0 v0]] eqn:Hh.
    + left. constructor; [congruence | exact Habs].
    + destruct (decide (k0 = k)) as [-> | Hne].
      * right. exists h, v0. split; [now left | exact Hh].
      * left. constructor; [congruence | exact Habs].
  - right. exists h', v. split; [now right | exact Hh].
Qed.

(** a key that occurs has a last occurrence *)
Lemma last_entry_exists (k : string) (hs : list string) :
  (exists h v, In h hs /\ header_item h = inr (k, v)) ->
  exists v, last_entry k v hs.
Proof.
  induction hs as [|h hs IH]; intros (h' & v & Hin & Hh); [destruct Hin|].
  destruct (key_absent_or_present k hs) as [Habs | Hpresent].
  - destruct Hin as [-> | Hin].
    + exists v. apply last_entry_cons. right. now split.
    + unfold key_absent in Habs. rewrite List.Forall_forall in Habs.
      now destruct (Habs h' Hin v).
  - destruct (IH Hpresent) as [v' Hv']. exists v'.
    apply last_entry_cons. now left.
Qed.

Lemma headers_dict_from_ok (hs : list string) :
  forall d d' : gmap string string,
    headers_dict_from d hs = inr d' ->
    forall k v,
      d' !! k = Some v
      <-> last_entry k v hs \/ (key_absent k hs /\ d !! k = Some v).
Proof.
  induction hs as [|h hs IH]; intros d d' Hrun k v; simpl in Hrun.
  - injection Hrun as <-. split.
    + intros Hd. right. split; [constructor | exact Hd].
    + intros [Hl | [_ Hd]]; [now apply last_entry_nil in Hl | exact Hd].
  - destruct (header_item h) as [e | [k0 v0]] eqn:Hh; [discriminate|].
    rewrite (IH _ _ Hrun k v), last_entry_cons. unfold key_absent.
    rewrite Forall_cons. destruct (decide (k0 = k)) as [-> | Hne].
    + rewrite lookup_insert_eq. split.
      * intros [Hl | [Habs Hv]]; [now left; left|].
        injection Hv as ->. left; right. split; [exact Hh | exact Habs].
      * intros [[Hl | [Hkv Habs]] | [[Hno _] _]].
        -- now left.
        -- right. split; [exact Habs | congruence].
        -- now destruct (Hno v0).
    + rewrite lookup_insert_ne by exact Hne. split.
      * intros [Hl | [Habs Hv]]; [now left; left|].
        right. split; [split; [congruence | exact Habs] | exact Hv].
      * intros [[Hl | [Hkv Habs]] | [[_ Habs] Hv]].
        -- now left.
        -- congruence.
        -- now right.
Qed.

Lemma headers_dict_from_error (hs : list string) :
  forall (d : gmap string string) (e : exn),
    headers_dict_from d hs = inl e ->
    e = IndexError /\ exists h, In h hs /\ count "=" h = 0.
Proof.
  induction hs as [|h hs IH]; intros d e Hrun; simpl in Hrun; [discriminate|].
  destruct (header_item h) as [e' | [k0 v0]] eqn:Hh.
  - injection Hrun as ->. destruct (header_item_error h e Hh) as [-> Hc].
    split; [reflexivity|]. exists h. split; [now left | exact Hc].
  - destruct (IH _ _ Hrun) as [-> (h' & Hin & Hc)].
    split; [reflexivity|]. exists h'. split; [now right | exact Hc].
Qed.

(** the mapping is built whenever every entry has a ['='] *)
Lemma headers_dict_from_total (hs : list string) :
  Forall (fun h => count "=" h <> 0) hs ->
  forall d, exists d', headers_dict_from d hs = inr d'.
Proof.
  induction 1 as [|h hs Hh _ IH]; intros d; simpl; [eauto|].
  destruct (header_item_succeeds h Hh) as (k & v & ->). apply IH.
Qed.

End Headers.

(* ===================================================================== *)
(** ** [main], step by step *)
(* ===================================================================== *)

Section MainFacts.

Variable json_loads : string -> option Json.value.
Variable transport : list Request -> Request -> string + Response.
Variable fstring : string -> gmap string string -> option Json.value -> string.

Lemma AnyBool_accepts (b : bool) : Schema.AnyBool b = inr b.
Proof. now destruct b. Qed.

(** only the url, the headers and the body can fail, in this order, and
    the validated dictionary is the dictionary that was given *)
Lemma validate_the_schema (a : Arguments) :
  Schema.validate (the_schema json_loads) a
  = match url_schema (a_url a) with
    | inl errors => inl (SchemaError errors)
    | inr _ =>
        match headers_schema (a_headers a) with
        | inl errors => inl (SchemaError errors)
        | inr _ =>
            match data_schema json_loads (a_data a) with
            | inl errors => inl (SchemaError errors)
            | inr _ => inr a
            end
        end
    end.
Proof.
  destruct a as [g pu po u h d vb vs].
  unfold Schema.validate, the_schema; simpl. rewrite !AnyBool_accepts.
  unfold url_schema, Schema.Regex.
  destruct (Re.search url_pattern u); [|reflexivity].
  rewrite headers_schema_eq.
  destruct (headers_have_eq h && headers_count_eq h); [|reflexivity].
  unfold data_schema, Schema.Or, Schema.Or_from, Schema.Literal, Schema.Callable.
  destruct d as [s|]; simpl; [|reflexivity].
  destruct (json_loads s) as [v|]; simpl; [|reflexivity].
  now destruct (Json.truthy v).
Qed.

(** a URL that starts with neither prefix fails the whole validation *)
Lemma validate_rejects_bad_url (a : Arguments) :
  PyStr.startswith "http://" (a_url a) || PyStr.startswith "https://" (a_url a)
  = false ->
  Schema.validate (the_schema json_loads) a = inl (SchemaError [url_error]).
Proof.
  intros H. rewrite validate_the_schema. unfold url_schema, Schema.Regex.
  now rewrite url_pattern_search, H.
Qed.

Lemma validate_returns_input (a a' : Arguments) :
  Schema.validate (the_schema json_loads) a = inr a' -> a' = a.
Proof.
  rewrite validate_the_schema.
  destruct (url_schema (a_url a)); [discriminate|].
  destruct (headers_schema (a_headers a)); [discriminate|].
  destruct (data_schema json_loads (a_data a)); [discriminate|].
  now intros [= <-].
Qed.

(** the body check: a text that decodes to a truthy value *)
Lemma data_schema_eq (data : option string) :
  data_schema json_loads data
  = match data with
    | None => inr None
    | Some s =>
        match json_loads s with
        | Some v => if Json.truthy v then inr (Some s) else inl [data_error]
        | None => inl [data_error]
        end
    end.
Proof.
  unfold data_schema, Schema.Or, Schema.Or_from, Schema.Literal, Schema.Callable.
  destruct data as [s|]; simpl; [|reflexivity].
  destruct (json_loads s) as [v|]; simpl; [|reflexivity].
  now destruct (Json.truthy v).
Qed.

(** a text the decoder refuses is rejected *)
Lemma data_schema_rejects_invalid (s : string) :
  json_loads s = None -> data_schema json_loads (Some s) = inl [data_error].
Proof. intros H. now rewrite data_schema_eq, H. Qed.

(** a text that decodes to a falsy value is rejected as well *)
Lemma data_schema_rejects_falsy (s : string) (v : Json.value) :
  json_loads s = Some v -> Json.truthy v = false ->
  data_schema json_loads (Some s) = inl [data_error].
Proof. intros H Hv. now rewrite data_schema_eq, H, Hv. Qed.

(** a text that decodes to a truthy value is accepted, and the body of the
    request is the decoded value *)
Lemma data_schema_accepts_truthy (s : string) (v : Json.value) :
  json_loads s = Some v -> Json.truthy v = true ->
  data_schema json_loads (Some s) = inr (Some s)
  /\ (s <> "" -> body_of json_loads (Some s) = inr (Some v)).
Proof.
  intros H Hv. split; [now rewrite data_schema_eq, H, Hv|].
  intros Hs. unfold body_of. destruct s; [congruence | now rewrite H].
Qed.

(** the handler of [main] guards nothing that can raise: [main] is
    validation, construction of the request and dispatch *)
Lemma main_unfold (a : Arguments) (w : World) :
  main json_loads transport fstring a w
  = bind (prepare json_loads fstring (the_schema json_loads) a)
         (dispatch transport) w.
Proof. reflexivity. Qed.

(** a [SchemaError] of the validation leaves [main] as it is, and the
    world is as it was: nothing printed, nothing logged, nothing sent *)
Lemma main_validation_error (a : Arguments) (w : World) (e : exn) :
  Schema.validate (the_schema json_loads) a = inl e ->
  main json_loads transport fstring a w = (inl e, w).
Proof.
  intros H. rewrite main_unfold. unfold prepare, bind, lift.
  now rewrite H.
Qed.

(** an [IndexError] of the comprehension leaves [main] too, before the
    request is made *)
Lemma main_headers_error (a : Arguments) (w : World) (e : exn) :
  Schema.validate (the_schema json_loads) a = inr a ->
  headers_dict (a_headers a) = inl e ->
  main json_loads transport fstring a w
  = (inl e, basicConfig_world (Some (if a_verbose a then DEBUG else INFO)) w).
Proof.
  intros Hv Hh. rewrite main_unfold. unfold prepare, bind, lift, basicConfig.
  rewrite Hv. cbn beta iota. now rewrite Hh.
Qed.

Lemma prepare_result_independent (schema : Schema.t) (a : Arguments) (w w' : World) :
  fst (prepare json_loads fstring schema a w)
  = fst (prepare json_loads fstring schema a w').
Proof.
  unfold prepare, bind, lift, basicConfig, logging_log, ret.
  destruct (Schema.validate schema a) as [e|a1]; [reflexivity|].
  destruct (headers_dict (a_headers a1)) as [e|hd]; [reflexivity|].
  destruct (body_of json_loads (a_data a1)) as [e|body]; reflexivity.
Qed.

(** a record is emitted when the root logger is at its level or below *)
Lemma log_world_emits (lvl : Level) (msg : string) (w : World) :
  (levelno (root_level w) <= levelno lvl)%Z ->
  log_output (log_world lvl msg w) = log_output w ++ [(lvl, msg)]
  /\ sent (log_world lvl msg w) = sent w
  /\ stdout (log_world lvl msg w) = stdout w.
Proof.
  intros H. unfold log_world, basicConfig_world.
  destruct (root_handlers w); simpl;
    (destruct (Z.leb_spec (levelno (root_level w)) (levelno lvl)); [|lia]);
    simpl; auto.
Qed.

Lemma log_world_output (lvl : Level) (msg : string) (w : World) :
  log_output (log_world lvl msg w)
  = if (levelno (root_level w) <=? levelno lvl)%Z
    then log_output w ++ [(lvl, msg)] else log_output w.
Proof.
  unfold log_world, basicConfig_world.
  destruct (root_handlers w); simpl; destruct (_ <=? _)%Z; reflexivity.
Qed.

Lemma log_world_sent (lvl : Level) (msg : string) (w : World) :
  sent (log_world lvl msg w) = sent w.
Proof.
  unfold log_world, basicConfig_world.
  destruct (root_handlers w); simpl;
    destruct (_ <=? _)%Z; reflexivity.
Qed.

(** one verb function: one request, then [_log_response] *)
Lemma verb_call (v : Verb) (url : string) (headers : gmap string string)
      (body : option Json.value) (w : World) (r : Response) :
  transport (sent w) (mkRequest v url headers body) = inr r ->
  let w1 := mkWorld (stdout w) (stderr w) (root_handlers w) (root_level w)
                    (log_output w) (sent w ++ [mkRequest v url headers body]) in
  bind (requests_request transport v url headers body) _log_response w
  = (inr (if ok r then 0 else 1)%Z,
     log_world (if ok r then INFO else ERROR) (text r) w1).
Proof.
  intros H. unfold bind, requests_request. rewrite H.
  unfold _log_response. destruct (ok r); reflexivity.
Qed.

End MainFacts.

(* ===================================================================== *)
(** ** The claims of the specification *)
(* ===================================================================== *)

Section Claims.

Variable json_loads : string -> option Json.value.
Variable transport : list Request -> Request -> string + Response.
Variable fstring : string -> gmap string string -> option Json.value -> string.

(** C1. Each of [get], [post] and [put] hands one request to the
    transport.  When the response is [ok], its text is logged at INFO and
    the function returns 0; otherwise its text is logged at ERROR and the
    function returns 1.  The root logger emits the record when its level
    allows, as it does once [main] has set it to INFO or DEBUG. *)
Theorem log_response_exit_code
        (v : Verb) (url : string) (headers : gmap string string)
        (body : option Json.value) (w : World) (r : Response)
        (Hr : transport (sent w) (mkRequest v url headers body) = inr r) :
  fst (verb_function v transport url headers body w)
  = inr (if ok r then 0 else 1)%Z
  /\ snd (verb_function v transport url headers body w)
     = log_world (if ok r then INFO else ERROR) (text r)
         (mkWorld (stdout w) (stderr w) (root_handlers w) (root_level w)
                  (log_output w) (sent w ++ [mkRequest v url headers body]))
  /\ log_output (snd (verb_function v transport url headers body w))
     = (if (levelno (root_level w) <=? levelno (if ok r then INFO else ERROR))%Z
        then log_output w ++ [(if ok r then INFO else ERROR, text r)]
        else log_output w)
  /\ sent (snd (verb_function v transport url headers body w))
     = sent w ++ [mkRequest v url headers body].
Proof.
  assert (Hcall : verb_function v transport url headers body
                  = bind (requests_request transport v url headers body)
                         _log_response) by now destruct v.
  rewrite Hcall, (verb_call transport v url headers body w r Hr). simpl.
  rewrite log_world_output, log_world_sent. auto.
Qed.

(** What the header check does guarantee.  The empty sequence is rejected.
    In a sequence all of whose entries but one have exactly one ['='], the
    check passes exactly when the remaining entry has exactly one ['='] as
    well: a single malformed entry is always found. *)
Theorem headers_check_one_odd_entry
        (before after : list string) (h : string)
        (Hbefore : Forall one_eq before) (Hafter : Forall one_eq after) :
  headers_schema [] = inl [headers_error]
  /\ headers_schema (before ++ h :: after)
     = if Nat.eqb (PyStr.count "=" h) 1
       then inr (before ++ h :: after) else inl [headers_error].
Proof.
  split; [reflexivity|].
  rewrite headers_schema_total, map_app, list_sum_app, length_app. simpl.
  rewrite (PyStrFacts.list_sum_all_one "=" before Hbefore),
          (PyStrFacts.list_sum_all_one "=" after Hafter).
  destruct (Nat.eqb_spec (PyStr.count "=" h) 1) as [E|E].
  - rewrite E.
    replace (length before + S (length after) =? 0)%nat with false
      by (symmetry; apply Nat.eqb_neq; lia).
    now rewrite Nat.eqb_refl.
  - replace (length before + (PyStr.count "=" h + length after)
             =? length before + S (length after))%nat with false
      by (symmetry; apply Nat.eqb_neq; lia).
    now rewrite andb_false_r.
Qed.


(** C4, on the command line [get ftp://example.com -H a=b]. The
    [SchemaError] of the validation is not caught in [main]: [main]
    prints nothing and returns nothing, the exception leaves it with the
    world untouched, and the exit status 1 is the interpreter's for an
    uncaught exception. *)
Theorem validation_error_escapes_main (w : World) :
  main json_loads transport fstring Sample.bad_url w
  = (inl (SchemaError [url_error]), w)
  /\ script json_loads transport fstring Sample.bad_url w
     = (1%Z, mkWorld (stdout w) (stderr w ++ [SchemaError [url_error]])
                     (root_handlers w) (root_level w) (log_output w) (sent w)).
Proof.
  assert (H : main json_loads transport fstring Sample.bad_url w
              = (inl (SchemaError [url_error]), w)).
  { apply main_validation_error. now rewrite validate_the_schema. }
  split; [exact H|]. unfold script. now rewrite H.
Qed.

(** C5. The URL check accepts a string exactly when it starts with
    [http://] or with [https://]; any other string is rejected with the
    error text of the URL. *)
Theorem url_validation (url : string) :
  url_schema url
  = if PyStr.startswith "http://" url || PyStr.startswith "https://" url
    then inr url else inl [url_error].
Proof.
  unfold url_schema, Schema.Regex. now rewrite url_pattern_search.
Qed.

(** C7. When the comprehension builds the mapping, the value under a key
    is the value of the last entry with this key, and the keys of the
    mapping are the keys of the entries; it fails to build it only with
    an [IndexError], on a sequence with an entry without ['=']. *)
Theorem header_mapping_last_write_wins (hs : list string) :
  match headers_dict hs with
  | inr d =>
      forall k : string,
        (forall v, d !! k = Some v <-> last_entry k v hs)
        /\ (k ∈ dom d <-> exists h v, In h hs /\ header_item h = inr (k, v))
  | inl e => e = IndexError /\ exists h, In h hs /\ PyStr.count "=" h = 0
  end.
Proof.
  unfold headers_dict.
  destruct (headers_dict_from ∅ hs) as [e|d] eqn:Hrun.
  - exact (headers_dict_from_error hs ∅ e Hrun).
  - intros k.
    assert (Hlook : forall v, d !! k = Some v <-> last_entry k v hs).
    { intros v. rewrite (headers_dict_from_ok hs ∅ d Hrun k v).
      rewrite lookup_empty. split; [intros [H | [_ H]] | intros H];
        [exact H | discriminate | now left]. }
    split; [exact Hlook|].
    rewrite elem_of_dom. split.
    + intros [v Hv]. apply Hlook in Hv as (before & h & after & -> & Hh & _).
      exists h, v. split; [apply in_elt | exact Hh].
    + intros Hsome. destruct (last_entry_exists k hs Hsome) as [v' Hv'].
      exists v'. now apply Hlook.
Qed.

(** C8. Validation and construction of the request depend on the command
    line only: a second run, started in the world the first run left,
    gives the same result as the first, as does a run in any other
    world; and the dictionary that leaves the validation is the one that
    entered it. *)
Theorem prepare_idempotent (a : Arguments) (w : World) :
  fst (prepare json_loads fstring (the_schema json_loads) a
         (snd (prepare json_loads fstring (the_schema json_loads) a w)))
  = fst (prepare json_loads fstring (the_schema json_loads) a w)
  /\ (forall w' : World,
        fst (prepare json_loads fstring (the_schema json_loads) a w')
        = fst (prepare json_loads fstring (the_schema json_loads) a w))
  /\ match Schema.validate (the_schema json_loads) a with
     | inr a' => a' = a
     | inl _ => True
     end.
Proof.
  split; [apply prepare_result_independent|].
  split; [intros w'; apply prepare_result_independent|].
  destruct (Schema.validate (the_schema json_loads) a) as [e|a'] eqn:Hv;
    [exact I | now apply (validate_returns_input json_loads)].
Qed.

(** C9. The sequence [a==b], [c] passes the header check, since it has two
    ['='] in two entries; the comprehension then asks for the second piece
    of [c], which has one piece only, and [main] ends with an
    [IndexError], not a [SchemaError], before any request is made. *)
Theorem accepted_headers_index_error (w : World) :
  headers_schema ["a==b"; "c"] = inr ["a==b"; "c"]
  /\ PyStr.split "=" "c" !! 1 = None
  /\ headers_dict ["a==b"; "c"] = inl IndexError
  /\ fst (main json_loads transport fstring Sample.uneven w) = inl IndexError
  /\ sent (snd (main json_loads transport fstring Sample.uneven w)) = sent w.
Proof.
  assert (Hmain : main json_loads transport fstring Sample.uneven w
                  = (inl IndexError, basicConfig_world (Some INFO) w)).
  { apply (main_headers_error json_loads transport fstring Sample.uneven w);
      [now rewrite validate_the_schema | reflexivity]. }
  rewrite Hmain. repeat split; try reflexivity.
  unfold basicConfig_world. now destruct (root_handlers w).
Qed.

(** C10. A command line without [--headers] has the empty sequence of
    entries; the header check rejects it, so the validation raises a
    [SchemaError], which leaves [main] before anything else happens. *)
Theorem no_headers_rejected (a : Arguments) (w : World)
        (Hnone : a_headers a = []) :
  headers_schema (a_headers a) = inl [headers_error]
  /\ exists errors,
       Schema.validate (the_schema json_loads) a = inl (SchemaError errors)
       /\ main json_loads transport fstring a w = (inl (SchemaError errors), w).
Proof.
  rewrite Hnone. split; [reflexivity|].
  assert (Hv : exists errors,
             Schema.validate (the_schema json_loads) a = inl (SchemaError errors)).
  { rewrite validate_the_schema, Hnone.
    destruct (url_schema (a_url a)) as [errors|u]; eauto. }
  destruct Hv as [errors Hv]. exists errors.
  split; [exact Hv | now apply main_validation_error].
Qed.

End Claims.

(** C6, on the command line [post https://httpbin.org/post -H a=b
    --data '{}']. The text [{}] is JSON and decodes to the empty
    dictionary, yet the body check rejects it with the error text of the
    body, because the decoder is used as a predicate and the empty
    dictionary is falsy; [main] ends with the [SchemaError]. *)
Theorem empty_json_object_rejected
        (transport : list Request -> Request -> string + Response)
        (fstring : string -> gmap string string -> option Json.value -> string)
        (w : World) :
  Json.loads "{}" = Some (Json.JDict [])
  /\ data_schema Json.loads (Some "{}") = inl [data_error]
  /\ main Json.loads transport fstring Sample.empty_object w
     = (inl (SchemaError [data_error]), w).
Proof.
  split; [reflexivity|]. split; [reflexivity|].
  apply main_validation_error. now rewrite validate_the_schema.
Qed.

(** C2. The header check is not made entry by entry, and differs from the
    entry by entry check in both directions: the empty sequence is rejected
    although none of its entries is malformed, and [a==b], [c] is accepted
    although both of its entries are. *)
Lemma headers_check_not_per_entry :
  ~ rejects_iff_some_entry_malformed []
  /\ ~ rejects_iff_some_entry_malformed ["a==b"; "c"].
Proof.
  split; intros [Hfwd Hbwd].
  - destruct Hfwd as (h & Hin & _); [now exists [headers_error] | destruct Hin].
  - destruct Hbwd as (errors & Herr); [|discriminate Herr].
    exists "c". split; [right; now left | discriminate].
Qed.


(* ===================================================================== *)
(** ** The theorems at work *)
(* ===================================================================== *)

Lemma log_response_exit_code_witness :
  fst (get (Sample.always Sample.r200) "https://httpbin.org/get" ∅ None
           Sample.configured)
  = inr 0%Z
  /\ log_output (snd (get (Sample.always Sample.r200) "https://httpbin.org/get"
                          ∅ None Sample.configured))
     = [(INFO, "ok")]
  /\ sent (snd (get (Sample.always Sample.r200) "https://httpbin.org/get"
                    ∅ None Sample.configured))
     = [mkRequest GET "https://httpbin.org/get" ∅ None].
Proof.
  pose proof (log_response_exit_code (Sample.always Sample.r200) GET
                "https://httpbin.org/get" ∅ None Sample.configured Sample.r200
                eq_refl) as (Hcode & _ & Hlog & Hsent).
  exact (conj Hcode (conj Hlog Hsent)).
Defined.

Lemma headers_check_one_odd_entry_witness :
  headers_schema ["Content-Type=application/json"; "X-Id=42"]
  = inr ["Content-Type=application/json"; "X-Id=42"].
Proof.
  apply (headers_check_one_odd_entry ["Content-Type=application/json"] []
           "X-Id=42").
  - constructor; [reflexivity | constructor].
  - constructor.
Defined.


Lemma no_headers_rejected_witness :
  headers_schema (a_headers Sample.no_headers) = inl [headers_error]
  /\ exists errors,
       Schema.validate (the_schema Json.loads) Sample.no_headers
       = inl (SchemaError errors)
       /\ main Json.loads (Sample.always Sample.r200) Sample.fstring
               Sample.no_headers fresh
          = (inl (SchemaError errors), fresh).
Proof.
  apply (no_headers_rejected Json.loads (Sample.always Sample.r200)
           Sample.fstring Sample.no_headers fresh).
  reflexivity.
Defined.

(** *** The examples of the specification, run through [main] *)

Example get_200_exits_0 :
  let out := main Json.loads (Sample.always Sample.r200) Sample.fstring
                  Sample.usage_get fresh in
  fst out = inr 0%Z
  /\ log_output (snd out)
     = [(DEBUG, "Sending request to https://httpbin.org/get"); (INFO, "ok")]
  /\ sent (snd out)
     = [mkRequest GET "https://httpbin.org/get"
                  {["Content-Type" := "application/json"]}
                  (Some (Json.JDict [([105; 100], Json.JStr [116; 104; 97; 116])]%N))].
Proof. vm_compute. auto. Qed.

Example post_500_exits_1 :
  let out := main Json.loads (Sample.always Sample.r500) Sample.fstring
                  Sample.usage_post fresh in
  fst out = inr 1%Z
  /\ log_output (snd out) = [(ERROR, "server error")]
  /\ length (sent (snd out)) = 1.
Proof. vm_compute. auto. Qed.

Example two_headers :
  headers_schema ["Content-Type=application/json"; "X-Id=42"]
  = inr ["Content-Type=application/json"; "X-Id=42"]
  /\ headers_dict ["Content-Type=application/json"; "X-Id=42"]
     = inr (<["X-Id" := "42"]> {["Content-Type" := "application/json"]}).
Proof. split; reflexivity. Qed.

Example last_duplicate_wins :
  headers_dict ["a=1"; "b=2"; "a=3"] = inr (<["b" := "2"]> {["a" := "3"]}).
Proof. vm_compute. reflexivity. Qed.

Example missing_value_is_not_json :
  Json.loads Sample.id_missing = None
  /\ data_schema Json.loads (Some Sample.id_missing) = inl [data_error].
Proof. split; reflexivity. Qed.

(* ===================================================================== *)
(** ** Runs of [main] from end to end *)
(* ===================================================================== *)

Section Runs.

Variable json_loads : string -> option Json.value.
Variable transport : list Request -> Request -> string + Response.
Variable fstring : string -> gmap string string -> option Json.value -> string.

Lemma basicConfig_world_keeps (level : option Level) (w : World) :
  stdout (basicConfig_world level w) = stdout w
  /\ log_output (basicConfig_world level w) = log_output w
  /\ sent (basicConfig_world level w) = sent w
  /\ stderr (basicConfig_world level w) = stderr w.
Proof. unfold basicConfig_world. now destruct (root_handlers w). Qed.

Lemma log_world_keeps (lvl : Level) (msg : string) (w : World) :
  stdout (log_world lvl msg w) = stdout w
  /\ sent (log_world lvl msg w) = sent w
  /\ stderr (log_world lvl msg w) = stderr w
  /\ root_level (log_world lvl msg w) = root_level w.
Proof.
  unfold log_world, basicConfig_world.
  destruct (root_handlers w); simpl; destruct (_ <=? _)%Z; auto.
Qed.

(** one verb function, whatever the transport answers *)
Lemma verb_function_run (v : Verb) (url : string) (headers : gmap string string)
      (body : option Json.value) (w : World) :
  verb_function v transport url headers body w
  = match transport (sent w) (mkRequest v url headers body) with
    | inl fault =>
        (inl (TransportFault fault),
         record_request (mkRequest v url headers body) w)
    | inr r =>
        (inr (if ok r then 0 else 1)%Z,
         log_world (if ok r then INFO else ERROR) (text r)
                   (record_request (mkRequest v url headers body) w))
    end.
Proof.
  assert (Hcall : verb_function v transport url headers body
                  = bind (requests_request transport v url headers body)
                         _log_response) by now destruct v.
  rewrite Hcall. unfold bind, requests_request, record_request.
  destruct (transport (sent w) (mkRequest v url headers body)) as [fault|r];
    [reflexivity|].
  unfold _log_response. now destruct (ok r).
Qed.

(** [main] as the sequence of its steps: validation, logging set-up, the
    comprehension, the body, the debug line, the verb *)
Lemma main_run (a : Arguments) (w : World) :
  main json_loads transport fstring a w
  = match Schema.validate (the_schema json_loads) a with
    | inl e => (inl e, w)
    | inr _ =>
        match headers_dict (a_headers a) with
        | inl e => (inl e, basicConfig_world (Some (level_of a)) w)
        | inr hd =>
            match body_of json_loads (a_data a) with
            | inl e => (inl e, basicConfig_world (Some (level_of a)) w)
            | inr b =>
                match method_of a with
                | Some v =>
                    verb_function v transport (a_url a) hd b
                      (log_world DEBUG (fstring (a_url a) hd b)
                                 (basicConfig_world (Some (level_of a)) w))
                | None =>
                    (inr 0%Z,
                     log_world DEBUG (fstring (a_url a) hd b)
                               (basicConfig_world (Some (level_of a)) w))
                end
            end
        end
    end.
Proof.
  rewrite main_unfold.
  unfold prepare, bind, lift, basicConfig, logging_log, ret, level_of.
  destruct (Schema.validate (the_schema json_loads) a) as [e|a'] eqn:Hv;
    [reflexivity|].
  apply validate_returns_input in Hv as ->.
  destruct (headers_dict (a_headers a)) as [e|hd]; [reflexivity|].
  destruct (body_of json_loads (a_data a)) as [e|b]; [reflexivity|].
  unfold dispatch, verb_function; simpl.
  destruct (method_of a) as [[]|]; reflexivity.
Qed.

End Runs.

(* ===================================================================== *)
(** ** Header entries: what gets through, and what the mapping holds *)
(* ===================================================================== *)

Section HeaderEntries.
Import PyStr PyStrFacts.

Lemma header_item_key (h k v : string) :
  header_item h = inr (k, v) -> header_key h = k.
Proof.
  unfold header_item, header_key, index.
  destruct (split "=" h) as [|k0 [|v0 pieces]]; simpl; congruence.
Qed.

Lemma header_item_has_eq (h k v : string) :
  header_item h = inr (k, v) -> count "=" h <> 0.
Proof.
  intros H E. rewrite (header_item_fails h E) in H. discriminate.
Qed.

(** the comprehension gets to its end only when every entry has a ['='] *)
Lemma headers_dict_from_built (hs : list string) :
  forall d d' : gmap string string,
    headers_dict_from d hs = inr d' ->
    Forall (fun h => count "=" h <> 0) hs.
Proof.
  induction hs as [|h hs IH]; intros d d' Hrun; [constructor|].
  simpl in Hrun. destruct (header_item h) as [e|[k v]] eqn:Hh; [discriminate|].
  constructor; [exact (header_item_has_eq h k v Hh) | exact (IH _ _ Hrun)].
Qed.

Lemma list_sum_at_least (hs : list string) :
  Forall (fun h => count "=" h <> 0) hs ->
  length hs <= list_sum (map (count "=") hs).
Proof. induction 1 as [|h hs Hh _ IH]; simpl; lia. Qed.

(** entries that all have a ['='], with as many ['='] as entries, have one
    each *)
Lemma all_one_of_total (hs : list string) :
  Forall (fun h => count "=" h <> 0) hs ->
  list_sum (map (count "=") hs) = length hs ->
  Forall one_eq hs.
Proof.
  induction 1 as [|h hs Hh Hall IH]; simpl; intros Hsum; [constructor|].
  pose proof (list_sum_at_least hs Hall).
  constructor; [unfold one_eq; lia | apply IH; lia].
Qed.

Lemma headers_schema_accepts (hs hs' : list string) :
  headers_schema hs = inr hs' ->
  hs' = hs /\ hs <> [] /\ list_sum (map (count "=") hs) = length hs.
Proof.
  rewrite headers_schema_total.
  destruct hs as [|h hs]; [discriminate|].
  destruct (Nat.eqb_spec (list_sum (map (count "=") (h :: hs))) (length (h :: hs)))
    as [E|E]; simpl; [|discriminate].
  intros [= <-]. auto.
Qed.

(** The header sequences that pass the check of the schema and for which
    the comprehension of line 107 builds a mapping are exactly the
    non-empty sequences whose entries have exactly one ['='] each. *)
Theorem headers_pass_and_build_iff (hs : list string) :
  (headers_schema hs = inr hs /\ exists d, headers_dict hs = inr d)
  <-> (hs <> [] /\ Forall one_eq hs).
Proof.
  split.
  - intros [Hcheck [d Hbuild]].
    destruct (headers_schema_accepts hs hs Hcheck) as (_ & Hne & Hsum).
    split; [exact Hne|].
    apply all_one_of_total; [|exact Hsum].
    exact (headers_dict_from_built hs ∅ d Hbuild).
  - intros [Hne Hall]. split.
    + rewrite headers_schema_total, (list_sum_all_one "=" hs Hall), Nat.eqb_refl.
      destruct hs; [congruence | reflexivity].
    + apply headers_dict_from_total.
      eapply Forall_impl; [exact Hall|]. unfold one_eq. intros h Hh. simpl. lia.
Qed.

(** For an entry with exactly one ['='] the comprehension loses nothing:
    the entry is its key, a ['='] and its value, and neither the key nor
    the value holds a ['=']. *)
Theorem header_item_round_trip (h : string) (Hone : one_eq h) :
  exists k v : string,
    header_item h = inr (k, v)
    /\ h = (k ++ "=" ++ v)%string
    /\ contains "=" k = false /\ contains "=" v = false.
Proof.
  pose proof (split_length "=" h) as Hlen.
  pose proof (join_split "=" h) as Hjoin.
  pose proof (split_pieces "=" h) as Hpieces.
  unfold one_eq in Hone. rewrite Hone in Hlen.
  destruct (split "=" h) as [|k [|v [|x pieces]]] eqn:Hs; simpl in Hlen; try lia.
  exists k, v. unfold header_item. rewrite Hs. simpl.
  inversion Hpieces as [|? ? Hk Hrest]; subst.
  inversion Hrest as [|? ? Hv _]; subst.
  repeat split; assumption.
Qed.

Lemma headers_dict_from_size (hs : list string) :
  forall d d' : gmap string string,
    headers_dict_from d hs = inr d' ->
    size d' <= size d + length hs
    /\ (size d' = size d + length hs
        <-> NoDup (map header_key hs)
            /\ Forall (fun k => d !! k = None) (map header_key hs)).
Proof.
  induction hs as [|h hs IH]; intros d d' Hrun; simpl in Hrun.
  - injection Hrun as <-. simpl. split; [lia|].
    split; [intros _; split; constructor | lia].
  - destruct (header_item h) as [e|[k v]] eqn:Hh; [discriminate|].
    destruct (IH _ _ Hrun) as [Hle Hiff]. simpl.
    rewrite (header_item_key h k v Hh).
    pose proof (map_size_insert k v d) as Hins.
    rewrite NoDup_cons, Forall_cons.
    destruct (d !! k) as [v0|] eqn:Hdk; unfold id in Hins.
    + split; [lia|]. split; [lia | intros (_ & Hnone & _); discriminate].
    + split; [lia|]. rewrite Hins in Hiff. split.
      * intros Hsize. assert (Hrest : size d' = S (size d) + length hs) by lia.
        apply Hiff in Hrest as [Hnd Hall]. split; [split|split]; auto.
        -- intros Hin. rewrite Forall_forall in Hall.
           specialize (Hall k Hin). rewrite lookup_insert_eq in Hall. discriminate.
        -- eapply Forall_impl; [exact Hall|]. intros k' Hk'. simpl in Hk'.
           destruct (decide (k = k')) as [->|Hne];
             [rewrite lookup_insert_eq in Hk'; discriminate
             | now rewrite lookup_insert_ne in Hk'].
      * intros [[Hnotin Hnd] [_ Hall]].
        assert (Hrest : size d' = S (size d) + length hs); [|lia].
        apply Hiff. split; [exact Hnd|].
        rewrite Forall_forall in Hall |- *. intros k' Hk'.
        rewrite lookup_insert_ne; [now apply Hall | congruence].
Qed.

(** The mapping never has more items than the sequence has entries, and it
    has as many exactly when the keys of the entries are pairwise
    different; otherwise a later entry has replaced an earlier one. *)
Theorem headers_dict_size (hs : list string) (d : gmap string string)
        (Hbuilt : headers_dict hs = inr d) :
  size d <= length hs
  /\ (size d = length hs <-> NoDup (map header_key hs)).
Proof.
  destruct (headers_dict_from_size hs ∅ d Hbuilt) as [Hle Hiff].
  rewrite map_size_empty in Hle, Hiff. simpl in Hle, Hiff.
  split; [exact Hle|]. rewrite Hiff. split; [now intros [H _]|].
  intros H. split; [exact H|].
  apply Forall_forall. intros k _. apply lookup_empty.
Qed.

End HeaderEntries.

(* ===================================================================== *)
(** ** Outcomes of [main] *)
(* ===================================================================== *)

Section Outcomes.

Variable json_loads : string -> option Json.value.
Variable transport : list Request -> Request -> string + Response.
Variable fstring : string -> gmap string string -> option Json.value -> string.

(** The command lines the schema accepts: the URL starts with [http://] or
    [https://], there is at least one header entry and as many ['='] in all
    entries together as there are entries, and the body, when given, decodes
    to a truthy value.  Any other command line raises a [SchemaError], and
    nothing else is ever raised by the validation. *)
Theorem validate_accepts_iff (a : Arguments) :
  (Schema.validate (the_schema json_loads) a = inr a
   <-> PyStr.startswith "http://" (a_url a)
       || PyStr.startswith "https://" (a_url a) = true
       /\ a_headers a <> []
       /\ list_sum (map (PyStr.count "=") (a_headers a)) = length (a_headers a)
       /\ (forall s, a_data a = Some s ->
           exists v, json_loads s = Some v /\ Json.truthy v = true))
  /\ (Schema.validate (the_schema json_loads) a = inr a
      \/ exists errors,
          Schema.validate (the_schema json_loads) a = inl (SchemaError errors)).
Proof.
  rewrite validate_the_schema. unfold url_schema, Schema.Regex.
  rewrite url_pattern_search, headers_schema_total, data_schema_eq.
  destruct (PyStr.startswith "http://" (a_url a)
            || PyStr.startswith "https://" (a_url a)).
  2:{ split; [|right; eauto]. split; [discriminate | now intros [? _]]. }
  destruct (a_headers a) as [|h hs] eqn:Hhs.
  { split; [|right; eauto]. split; [discriminate | now intros (_ & ? & _)]. }
  destruct (Nat.eqb_spec (list_sum (map (PyStr.count "=") (h :: hs)))
                         (length (h :: hs))) as [E|E]; simpl negb; simpl andb.
  2:{ split; [|right; eauto]. split; [discriminate | now intros (_ & _ & ? & _)]. }
  destruct (a_data a) as [s|] eqn:Hd.
  2:{ split; [|now left]. split; [|reflexivity].
      intros _. split; [reflexivity|]. split; [discriminate|].
      split; [exact E | discriminate]. }
  destruct (json_loads s) as [v|] eqn:Hs.
  2:{ split; [|right; eauto]. split; [discriminate|].
      intros (_ & _ & _ & Hb). destruct (Hb s eq_refl) as (v & Hv & _).
      congruence. }
  destruct (Json.truthy v) eqn:Ht.
  - split; [|now left]. split; [|reflexivity].
    intros _. split; [reflexivity|]. split; [discriminate|].
    split; [exact E|]. intros s' [= <-]. eauto.
  - split; [|right; eauto]. split; [discriminate|].
    intros (_ & _ & _ & Hb). destruct (Hb s eq_refl) as (v' & Hv' & Ht').
    congruence.
Qed.

(** Once the body check of the schema has passed, line 108 cannot raise:
    the body of the request is the decoded text ([None] without
    [--data]), and a decoded body is truthy.  The decoder is taken to
    refuse the empty text, as [json.loads] does. *)
Theorem body_after_validation (d d' : option string)
        (Hempty : json_loads "" = None)
        (Hok : data_schema json_loads d = inr d') :
  d' = d
  /\ body_of json_loads d = inr (d ≫= json_loads)
  /\ (forall v, d ≫= json_loads = Some v -> Json.truthy v = true).
Proof.
  rewrite data_schema_eq in Hok. destruct d as [s|]; simpl.
  - destruct (json_loads s) as [v|] eqn:Hs; [|discriminate].
    destruct (Json.truthy v) eqn:Ht; [|discriminate].
    injection Hok as <-. split; [reflexivity|]. split.
    + destruct s; [congruence | reflexivity].
    + now intros v' [= <-].
  - injection Hok as <-. repeat split. discriminate.
Qed.

(** A command line that passes validation, whose headers build a mapping
    and whose body decodes, makes [main] hand exactly one request to the
    transport: the verb of the command line, the URL as given, the mapping
    and the decoded body.  The return value is 0 when the response is [ok]
    and 1 otherwise. *)
Theorem main_sends_built_request
        (a : Arguments) (w : World) (hd : gmap string string)
        (b : option Json.value) (v : Verb) (r : Response)
        (Hv : Schema.validate (the_schema json_loads) a = inr a)
        (Hh : headers_dict (a_headers a) = inr hd)
        (Hb : body_of json_loads (a_data a) = inr b)
        (Hm : method_of a = Some v)
        (Hr : transport (sent w) (mkRequest v (a_url a) hd b) = inr r) :
  fst (main json_loads transport fstring a w) = inr (if ok r then 0 else 1)%Z
  /\ sent (snd (main json_loads transport fstring a w)) = sent w ++ [mkRequest v (a_url a) hd b].
Proof.
  rewrite main_run, Hv, Hh, Hb, Hm, verb_function_run.
  destruct (log_world_keeps DEBUG (fstring (a_url a) hd b)
              (basicConfig_world (Some (level_of a)) w)) as (_ & Hs & _).
  destruct (basicConfig_world_keeps (Some (level_of a)) w) as (_ & _ & Hs' & _).
  rewrite Hs, Hs', Hr; simpl. rewrite log_world_sent; simpl.
  now rewrite Hs, Hs'.
Qed.


(** [main] makes at most one request, whatever the command line and the
    transport. *)
Theorem main_sends_at_most_one_request (a : Arguments) (w : World) :
  sent (snd (main json_loads transport fstring a w)) = sent w
  \/ exists rq, sent (snd (main json_loads transport fstring a w)) = sent w ++ [rq].
Proof.
  rewrite main_run.
  destruct (basicConfig_world_keeps (Some (level_of a)) w) as (_ & _ & Hs' & _).
  destruct (Schema.validate (the_schema json_loads) a); [now left|].
  destruct (headers_dict (a_headers a)) as [e|hd]; [now left|].
  destruct (body_of json_loads (a_data a)) as [e|b]; [now left|].
  destruct (log_world_keeps DEBUG (fstring (a_url a) hd b)
              (basicConfig_world (Some (level_of a)) w)) as (_ & Hs & _).
  destruct (method_of a) as [v|]; [|left; simpl; congruence].
  right. exists (mkRequest v (a_url a) hd b). rewrite verb_function_run.
  destruct (transport _ _); simpl; rewrite ?log_world_sent; simpl; congruence.
Qed.


(** What a return value of [main] means.  It is 0 or 1; when a verb is
    selected, a request was made and answered, and the value is 0 exactly
    when the response is [ok].  Without a verb no request is made and the
    value is the initial 0 of line 109. *)
Theorem exit_code_meaning (a : Arguments) (w : World) (rc : Z)
        (Hrc : fst (main json_loads transport fstring a w) = inr rc) :
  (method_of a = None /\ rc = 0%Z /\ sent (snd (main json_loads transport fstring a w)) = sent w)
  \/ (exists rq r,
        method_of a = Some (req_verb rq) /\ req_url rq = a_url a
        /\ sent (snd (main json_loads transport fstring a w)) = sent w ++ [rq]
        /\ transport (sent w) rq = inr r
        /\ rc = (if ok r then 0 else 1)%Z).
Proof.
  revert Hrc. rewrite main_run.
  destruct (basicConfig_world_keeps (Some (level_of a)) w) as (_ & _ & Hs' & _).
  destruct (Schema.validate (the_schema json_loads) a); [discriminate|].
  destruct (headers_dict (a_headers a)) as [e|hd]; [discriminate|].
  destruct (body_of json_loads (a_data a)) as [e|b]; [discriminate|].
  destruct (log_world_keeps DEBUG (fstring (a_url a) hd b)
              (basicConfig_world (Some (level_of a)) w)) as (_ & Hs & _).
  destruct (method_of a) as [v|].
  - rewrite verb_function_run, Hs, Hs'.
    destruct (transport (sent w) (mkRequest v (a_url a) hd b)) as [fault|r] eqn:Hr;
      [discriminate|].
    simpl. intros [= <-]. right. exists (mkRequest v (a_url a) hd b), r.
    rewrite log_world_sent. simpl. rewrite Hs, Hs'. auto.
  - simpl. intros [= <-]. left. repeat split. congruence.
Qed.

(** The exit status of the script is 0 or 1, also when an exception leaves
    [main]. *)
Theorem script_exit_status (a : Arguments) (w : World) :
  fst (script json_loads transport fstring a w) = 0%Z \/ fst (script json_loads transport fstring a w) = 1%Z.
Proof.
  unfold script. rewrite main_run.
  destruct (Schema.validate (the_schema json_loads) a); [now right|].
  destruct (headers_dict (a_headers a)) as [e|hd]; [now right|].
  destruct (body_of json_loads (a_data a)) as [e|b]; [now right|].
  destruct (method_of a) as [v|]; [|now left].
  rewrite verb_function_run.
  destruct (transport _ _) as [fault|r]; [now right|].
  destruct (ok r); [now left | now right].
Qed.

(** A fault of the transport is not caught anywhere: it leaves [main] as an
    exception after the request was handed over, the script ends with
    status 1 and the fault is what the interpreter reports. *)
Theorem transport_fault_ends_script
        (a : Arguments) (w : World) (hd : gmap string string)
        (b : option Json.value) (v : Verb) (fault : string)
        (Hv : Schema.validate (the_schema json_loads) a = inr a)
        (Hh : headers_dict (a_headers a) = inr hd)
        (Hb : body_of json_loads (a_data a) = inr b)
        (Hm : method_of a = Some v)
        (Hf : transport (sent w) (mkRequest v (a_url a) hd b) = inl fault) :
  fst (main json_loads transport fstring a w) = inl (TransportFault fault)
  /\ sent (snd (main json_loads transport fstring a w)) = sent w ++ [mkRequest v (a_url a) hd b]
  /\ fst (script json_loads transport fstring a w) = 1%Z
  /\ stderr (snd (script json_loads transport fstring a w)) = stderr w ++ [TransportFault fault].
Proof.
  unfold script.
  rewrite main_run, Hv, Hh, Hb, Hm, verb_function_run.
  destruct (log_world_keeps DEBUG (fstring (a_url a) hd b)
              (basicConfig_world (Some (level_of a)) w)) as (_ & Hs & He & _).
  destruct (basicConfig_world_keeps (Some (level_of a)) w) as (_ & _ & Hs' & He').
  rewrite Hs, Hs', Hf; simpl. rewrite Hs, Hs', He, He'. auto.
Qed.

(** A command line that passes validation although not every header entry
    has exactly one ['='] always ends in the [IndexError] of line 107:
    no request is made, nothing is logged, and the script ends with
    status 1. *)
Theorem malformed_entries_index_error (a : Arguments) (w : World)
        (Hv : Schema.validate (the_schema json_loads) a = inr a)
        (Hbad : ~ Forall one_eq (a_headers a)) :
  fst (main json_loads transport fstring a w) = inl IndexError
  /\ sent (snd (main json_loads transport fstring a w)) = sent w
  /\ log_output (snd (main json_loads transport fstring a w)) = log_output w
  /\ fst (script json_loads transport fstring a w) = 1%Z.
Proof.
  assert (Hcheck : exists hs', headers_schema (a_headers a) = inr hs').
  { rewrite validate_the_schema in Hv.
    destruct (url_schema (a_url a)); [discriminate|].
    destruct (headers_schema (a_headers a)); [discriminate | eauto]. }
  destruct Hcheck as [hs' Hcheck].
  destruct (headers_schema_accepts _ _ Hcheck) as (_ & _ & Hsum).
  assert (Hrun : headers_dict (a_headers a) = inl IndexError).
  { destruct (headers_dict (a_headers a)) as [e|d] eqn:Hd.
    - now destruct (headers_dict_from_error _ _ _ Hd) as [-> _].
    - destruct Hbad. apply all_one_of_total; [|exact Hsum].
      exact (headers_dict_from_built _ _ _ Hd). }
  unfold script. rewrite main_run, Hv, Hrun. simpl.
  destruct (basicConfig_world_keeps (Some (level_of a)) w) as (_ & Hl & Hs & _).
  auto.
Qed.

End Outcomes.

(** *** The theorems on runs, at work *)

Lemma header_item_round_trip_witness :
  exists k v : string,
    header_item "X-Id=42" = inr (k, v)
    /\ "X-Id=42" = (k ++ "=" ++ v)%string
    /\ PyStr.contains "=" k = false /\ PyStr.contains "=" v = false.
Proof.
  apply (header_item_round_trip "X-Id=42"). reflexivity.
Defined.

Lemma headers_dict_size_witness :
  size (<["b" := "2"]> ({["a" := "3"]} : gmap string string)) <= 3
  /\ (size (<["b" := "2"]> ({["a" := "3"]} : gmap string string)) = 3
      <-> NoDup (map header_key ["a=1"; "b=2"; "a=3"])).
Proof.
  apply (headers_dict_size ["a=1"; "b=2"; "a=3"]). vm_compute. reflexivity.
Defined.

Lemma body_after_validation_witness :
  Some Sample.id_that = Some Sample.id_that
  /\ body_of Json.loads (Some Sample.id_that)
     = inr (Some Sample.id_that ≫= Json.loads)
  /\ (forall v, Some Sample.id_that ≫= Json.loads = Some v ->
      Json.truthy v = true).
Proof.
  apply (body_after_validation Json.loads (Some Sample.id_that)
           (Some Sample.id_that)); reflexivity.
Defined.

Lemma main_sends_built_request_witness :
  fst (main Json.loads (Sample.always Sample.r200) Sample.fstring
            Sample.usage_get fresh)
  = inr 0%Z
  /\ sent (snd (main Json.loads (Sample.always Sample.r200) Sample.fstring
                     Sample.usage_get fresh))
     = [mkRequest GET "https://httpbin.org/get" Sample.usage_headers
                  Sample.usage_body].
Proof.
  apply (main_sends_built_request Json.loads (Sample.always Sample.r200)
           Sample.fstring Sample.usage_get fresh Sample.usage_headers
           Sample.usage_body GET Sample.r200); reflexivity.
Defined.


Lemma exit_code_meaning_witness :
  (method_of Sample.usage_post = None /\ 1%Z = 0%Z
   /\ sent (snd (main Json.loads (Sample.always Sample.r500) Sample.fstring
                      Sample.usage_post fresh)) = sent fresh)
  \/ (exists rq r,
        method_of Sample.usage_post = Some (req_verb rq)
        /\ req_url rq = a_url Sample.usage_post
        /\ sent (snd (main Json.loads (Sample.always Sample.r500) Sample.fstring
                           Sample.usage_post fresh)) = sent fresh ++ [rq]
        /\ Sample.always Sample.r500 (sent fresh) rq = inr r
        /\ 1%Z = (if ok r then 0 else 1)%Z).
Proof.
  apply (exit_code_meaning Json.loads (Sample.always Sample.r500)
           Sample.fstring Sample.usage_post fresh 1%Z). reflexivity.
Defined.

Lemma transport_fault_ends_script_witness :
  fst (main Json.loads Sample.refused Sample.fstring Sample.usage_get fresh)
  = inl (TransportFault "Connection refused")
  /\ sent (snd (main Json.loads Sample.refused Sample.fstring
                     Sample.usage_get fresh))
     = [mkRequest GET "https://httpbin.org/get" Sample.usage_headers
                  Sample.usage_body]
  /\ fst (script Json.loads Sample.refused Sample.fstring Sample.usage_get fresh)
     = 1%Z
  /\ stderr (snd (script Json.loads Sample.refused Sample.fstring
                         Sample.usage_get fresh))
     = [TransportFault "Connection refused"].
Proof.
  apply (transport_fault_ends_script Json.loads Sample.refused Sample.fstring
           Sample.usage_get fresh Sample.usage_headers Sample.usage_body GET
           "Connection refused"); reflexivity.
Defined.

Lemma malformed_entries_index_error_witness :
  fst (main Json.loads (Sample.always Sample.r200) Sample.fstring
            Sample.uneven fresh)
  = inl IndexError
  /\ sent (snd (main Json.loads (Sample.always Sample.r200) Sample.fstring
                     Sample.uneven fresh)) = []
  /\ log_output (snd (main Json.loads (Sample.always Sample.r200) Sample.fstring
                           Sample.uneven fresh)) = []
  /\ fst (script Json.loads (Sample.always Sample.r200) Sample.fstring
                 Sample.uneven fresh) = 1%Z.
Proof.
  apply (malformed_entries_index_error Json.loads (Sample.always Sample.r200)
           Sample.fstring Sample.uneven fresh).
  - reflexivity.
  - intros H. inversion H as [|h hs Hone _]. discriminate Hone.
Defined.
